(** * TestingComponent: a PowerApps control that shows one recognized utterance

    Shallow embedding of [src/TestingComponent/index.ts].  The class
    [TestingComponent] is a record of its fields; its methods are programs
    of a small state-and-exception monad over a [World] that also holds the
    DOM objects the control creates, the host's notification counter and
    the suspended asynchronous calls.  The JavaScript event loop is a
    [step] function over host calls and completions of pending promises. *)

From stdpp Require Import base option list strings.

(** ** JavaScript values *)

(** The values that can reach a field of the control or a field of the
    token object: [undefined], [null], strings, and (for response bodies)
    plain objects. *)
#[local] Set Warnings "-register-all".
Inductive JsVal : Type :=
| VUndefined
| VNull
| VStr (s : string)
| VObj (fields : list (string * JsVal)).
#[local] Set Warnings "+register-all".

Definition is_string (v : JsVal) : bool :=
  match v with VStr _ => true | _ => false end.

Definition is_nullish (v : JsVal) : bool :=
  match v with VUndefined | VNull => true | _ => false end.

(** ToString, as applied when a value is stored into a DOMString. *)
Definition ToString (v : JsVal) : string :=
  match v with
  | VUndefined => "undefined"
  | VNull => "null"
  | VStr s => s
  | VObj _ => "[object Object]"
  end.

(** Truthiness of a possibly missing string: [undefined] and the empty
    string are falsy. *)
Definition truthy (o : option string) : bool :=
  match o with
  | Some s => negb (String.eqb s "")
  | None => false
  end.

(** [o ? o : d] and [o || d] on a possibly missing string. *)
Definition or_else (o : option string) (d : string) : string :=
  match o with
  | Some s => if truthy o then s else d
  | None => d
  end.

Inductive Exn : Type :=
| TypeError (msg : string)
| SdkError (msg : string).

(** ** The host's property bag (ComponentFramework.Context<IInputs>) *)

(** [raw] is [string | null]; [formatted] is an optional string. *)
Record StringProperty : Type := {
  raw : option string;
  formatted : option string
}.

Record IInputs : Type := { sampleProperty : StringProperty }.

Record Context : Type := { parameters : IInputs }.

Record IOutputs : Type := { o_sampleProperty : JsVal }.

(** [raw!]: the non-null assertion is erased at run time, a [null] bound
    value is stored as it is. *)
Definition raw_value (ctx : Context) : JsVal :=
  match raw (sampleProperty (parameters ctx)) with
  | Some s => VStr s
  | None => VNull
  end.

(** ** DOM objects *)

(** The elements that the program can hold a reference to (those made by
    [document.createElement] and the host's container) live in a heap; a
    reference is an index into it.  References never dangle in JavaScript,
    so the heap operations are total. *)
Definition ref := nat.

(** The children of an element: nodes held by reference, and the nodes
    that the browser's HTML parser made of a markup string assigned through
    [innerHTML].  [Fragment s] stands for those nodes, whatever they are
    (a text node for plain text, elements for markup, nothing when the
    parser drops everything); they are not in the heap, no reference to
    them exists. *)
Inductive Child : Type :=
| Node (r : ref)
| Fragment (markup : string).

Record Element : Type := {
  tagName : string;
  attributes : list (string * string);
  childNodes : list Child
}.

Definition new_element (tag : string) : Element :=
  {| tagName := tag; attributes := []; childNodes := [] |}.

(** The children that the parser makes of a markup string: none for the
    empty string. *)
Definition parsed (s : string) : list Child :=
  if String.eqb s "" then [] else [Fragment s].

Definition with_attribute (name value : string) (e : Element) : Element :=
  {| tagName := tagName e;
     attributes :=
       filter (fun kv => negb (String.eqb (fst kv) name)) (attributes e)
       ++ [(name, value)];
     childNodes := childNodes e |}.

(** The [innerHTML] setter takes a DOMString with [null] treated as the
    empty string. *)
Definition DOMString_of (v : JsVal) : string :=
  match v with
  | VNull => ""
  | _ => ToString v
  end.

(** The [innerHTML] setter: the string is parsed as markup and the nodes
    made of it replace all the children of the element. *)
Definition with_innerHTML (s : string) (e : Element) : Element :=
  {| tagName := tagName e;
     attributes := attributes e;
     childNodes := parsed s |}.

Definition with_child (c : ref) (e : Element) : Element :=
  {| tagName := tagName e;
     attributes := attributes e;
     childNodes := childNodes e ++ [Node c] |}.

(** ** The HTTP client (axios) *)

Record HttpRequest : Type := {
  url : string;
  body : JsVal;
  config : JsVal
}.

Record AxiosResponse : Type := {
  status : nat;
  data : JsVal
}.

(** The rejection value of [axios.post]: [response] is present when the
    server answered (with a status outside 2xx) and [undefined] when no
    answer was received. *)
Record AxiosError : Type := {
  message : string;
  response : option AxiosResponse
}.

Inductive AxiosOutcome : Type :=
| Resolved (r : AxiosResponse)
| Rejected (err : AxiosError).

(** ** The speech SDK *)

(** [ResultReason]: the members a recognizer can report are listed; the
    members of the synthesis and voice-profile families are collapsed
    into [OtherReason]. *)
Inductive ResultReason : Type :=
| NoMatch
| Canceled
| RecognizingSpeech
| RecognizedSpeech
| RecognizedKeyword
| RecognizingIntent
| RecognizedIntent
| TranslatingSpeech
| TranslatedSpeech
| OtherReason.

#[global] Instance ResultReason_eq_dec : EqDecision ResultReason.
Proof. solve_decision. Defined.

Record SpeechRecognitionResult : Type := {
  reason : ResultReason;
  text : string
}.

Record SpeechConfig : Type := {
  authorizationToken : JsVal;
  region : string;
  speechRecognitionLanguage : string
}.

Inductive AudioConfig : Type :=
| DefaultMicrophoneInput.

Record SpeechRecognizer : Type := {
  speechConfig : SpeechConfig;
  audioConfig : AudioConfig
}.

(** ** What the control is given from outside *)

(** [SPEECH_KEY] is [process.env.SPEECH_KEY].  The SDK's factory
    [SpeechConfig.fromAuthorizationToken] stores its two arguments, but
    may first reject them; which arguments it rejects is not in this
    repository, so it is the parameter [sdk_rejects] ([None]: accepted). *)
Record Env : Type := {
  SPEECH_KEY : JsVal;
  sdk_rejects : JsVal -> string -> option Exn
}.

(** ** The control and its world *)

Inductive HostCallback : Type := NotifyOutputChanged.
Inductive BoundMethod : Type := BoundRefreshData.

(** The fields of [class TestingComponent]; none has an initializer. *)
Record TestingComponent : Type := {
  _container : option ref;
  _context : option Context;
  _notifyOutputChanged : option HostCallback;
  _refreshData : option BoundMethod;
  labelElement : option ref;
  displayText : JsVal
}.

(** [constructor() {}] *)
Definition constructor : TestingComponent :=
  {| _container := None; _context := None; _notifyOutputChanged := None;
     _refreshData := None; labelElement := None; displayText := VUndefined |}.

(** The token object returned by [getTokenOrRefresh]: one of the two
    object literals, a property that a literal lacks reads [undefined]. *)
Record TokenObj : Type := {
  authToken : JsVal;
  tok_region : option string;
  error : JsVal
}.

(** One call of [sttFromMic], suspended or finished. *)
Inductive Session : Type :=
| AwaitingToken (req : HttpRequest)
| AwaitingResult (recognizer : SpeechRecognizer)
| Completed (recognizer : SpeechRecognizer)
| Faulted (e : Exn).

(** [dom] is the heap of the elements that a reference exists to; the
    nodes that the HTML parser makes on an [innerHTML] assignment are the
    [Fragment] children of the element assigned to, not cells of [dom]. *)
Record World : Type := {
  dom : list Element;
  this : TestingComponent;
  notified : nat;
  sessions : list Session
}.

(** ** The monad of the methods: state and exceptions *)

Inductive Outcome (A : Type) : Type :=
| Ret (a : A)
| Throw (e : Exn).
Arguments Ret {A} a.
Arguments Throw {A} e.

Definition M (A : Type) : Type := World -> Outcome A * World.

#[global] Instance M_ret : MRet M := fun A a w => (Ret a, w).

#[global] Instance M_bind : MBind M := fun A B k m w =>
  match m w with
  | (Ret a, w') => k a w'
  | (Throw e, w') => (Throw e, w')
  end.

Definition throw {A : Type} (e : Exn) : M A := fun w => (Throw e, w).

Definition read {A : Type} (f : World -> A) : M A := fun w => (Ret (f w), w).

Definition write (f : World -> World) : M unit := fun w => (Ret tt, f w).

(** Property access on a field that may hold [undefined]. *)
Definition deref {A : Type} (name : string) (field : TestingComponent -> option A) : M A :=
  fun w =>
    match field (this w) with
    | Some a => (Ret a, w)
    | None => (Throw (TypeError ("Cannot read properties of undefined: " +:+ name)), w)
    end.

Definition update_this (f : TestingComponent -> TestingComponent) : M unit :=
  write (fun w =>
    {| dom := dom w; this := f (this w); notified := notified w;
       sessions := sessions w |}).

Definition update_dom (f : list Element -> list Element) : M unit :=
  write (fun w =>
    {| dom := f (dom w); this := this w; notified := notified w;
       sessions := sessions w |}).

Definition update_sessions (f : list Session -> list Session) : M unit :=
  write (fun w =>
    {| dom := dom w; this := this w; notified := notified w;
       sessions := f (sessions w) |}).

(** Field assignments [this.f = v]. *)
Definition set__container (v : option ref) (c : TestingComponent) : TestingComponent :=
  {| _container := v; _context := _context c;
     _notifyOutputChanged := _notifyOutputChanged c;
     _refreshData := _refreshData c; labelElement := labelElement c;
     displayText := displayText c |}.

Definition set__context (v : option Context) (c : TestingComponent) : TestingComponent :=
  {| _container := _container c; _context := v;
     _notifyOutputChanged := _notifyOutputChanged c;
     _refreshData := _refreshData c; labelElement := labelElement c;
     displayText := displayText c |}.

Definition set__notifyOutputChanged (v : option HostCallback) (c : TestingComponent) : TestingComponent :=
  {| _container := _container c; _context := _context c;
     _notifyOutputChanged := v;
     _refreshData := _refreshData c; labelElement := labelElement c;
     displayText := displayText c |}.

Definition set__refreshData (v : option BoundMethod) (c : TestingComponent) : TestingComponent :=
  {| _container := _container c; _context := _context c;
     _notifyOutputChanged := _notifyOutputChanged c;
     _refreshData := v; labelElement := labelElement c;
     displayText := displayText c |}.

Definition set_labelElement (v : option ref) (c : TestingComponent) : TestingComponent :=
  {| _container := _container c; _context := _context c;
     _notifyOutputChanged := _notifyOutputChanged c;
     _refreshData := _refreshData c; labelElement := v;
     displayText := displayText c |}.

Definition set_displayText (v : JsVal) (c : TestingComponent) : TestingComponent :=
  {| _container := _container c; _context := _context c;
     _notifyOutputChanged := _notifyOutputChanged c;
     _refreshData := _refreshData c; labelElement := labelElement c;
     displayText := v |}.

(** DOM primitives. *)
Definition createElement (tag : string) : M ref :=
  r ← read (fun w => length (dom w));
  update_dom (fun d => d ++ [new_element tag]);;
  mret r.

Definition setAttribute (r : ref) (name value : string) : M unit :=
  update_dom (alter (with_attribute name value) r).

Definition set_innerHTML (r : ref) (v : JsVal) : M unit :=
  update_dom (alter (with_innerHTML (DOMString_of v)) r).

Definition appendChild (parent child : ref) : M unit :=
  update_dom (alter (with_child child) parent).

(** Calling the host's [notifyOutputChanged]. *)
Definition call_notifyOutputChanged (f : HostCallback) : M unit :=
  write (fun w =>
    {| dom := dom w; this := this w; notified := S (notified w);
       sessions := sessions w |}).

(** ** The methods of the class *)

Section Methods.

Variable env : Env.

(** *** getTokenOrRefresh

    An [async] function with one [await].  Up to the [await] it builds
    the request and hands it to [axios.post]; it resumes when the
    promise of [axios.post] settles. *)

Definition speechRegion : string := "westeurope".

Definition getTokenOrRefresh_request : HttpRequest :=
  let speechKey := SPEECH_KEY env in
  let headers :=
    VObj [("headers",
           VObj [("Ocp-Apim-Subscription-Key", speechKey);
                 ("Content-Type", VStr "application/x-www-form-urlencoded")])] in
  {| url := "https://" +:+ speechRegion
            +:+ ".api.cognitive.microsoft.com/sts/v1.0/issueToken";
     body := VNull;
     config := headers |}.

(** The [try] block after the [await], and the [catch] block.  In the
    [catch] block [err.response.data] reads a property of
    [err.response]; when that is [undefined] the read throws, and
    nothing catches it.  The [console.log] of the token writes to no
    state of the control and is left out. *)
Definition getTokenOrRefresh_resume (settled : AxiosOutcome) : Outcome TokenObj :=
  match settled with
  | Resolved tokenResponse =>
      Ret {| authToken := data tokenResponse;
             tok_region := Some speechRegion;
             error := VUndefined |}
  | Rejected err =>
      match response err with
      | Some r =>
          Ret {| authToken := VNull; tok_region := None; error := data r |}
      | None =>
          Throw (TypeError "Cannot read properties of undefined (reading 'data')")
      end
  end.

(** *** sttFromMic *)

(** [speechsdk.SpeechConfig.fromAuthorizationToken]. *)
Definition fromAuthorizationToken (token : JsVal) (reg : string) : M SpeechConfig :=
  match sdk_rejects env token reg with
  | Some e => throw e
  | None =>
      mret {| authorizationToken := token; region := reg;
              speechRecognitionLanguage := "" |}
  end.

Definition set_speechRecognitionLanguage (lang : string) (c : SpeechConfig) : SpeechConfig :=
  {| authorizationToken := authorizationToken c; region := region c;
     speechRecognitionLanguage := lang |}.

Definition listening_text : string := "speak into your microphone...".

Definition error_text : string :=
  "ERROR: Speech was cancelled or could not be recognized. Ensure your microphone is working properly.".

(** Up to its [await]: the call of [getTokenOrRefresh], which leaves a
    pending request. *)
Definition sttFromMic : M unit :=
  update_sessions (fun l => l ++ [AwaitingToken getTokenOrRefresh_request]).

(** From the [await] to the end of the body; the value is the recognizer
    on which [recognizeOnceAsync] has been called. *)
Definition sttFromMic_resume (tokenObj : TokenObj) : M SpeechRecognizer :=
  speechConfig ← fromAuthorizationToken (authToken tokenObj)
                                         (or_else (tok_region tokenObj) "");
  let speechConfig := set_speechRecognitionLanguage "en-US" speechConfig in
  let audioConfig := DefaultMicrophoneInput in
  let recognizer :=
    {| speechConfig := speechConfig; audioConfig := audioConfig |} in
  update_this (set_displayText (VStr listening_text));;
  mret recognizer.

(** The arrow function passed to [recognizeOnceAsync]. *)
Definition recognized_callback (result : SpeechRecognitionResult) : M unit :=
  let displayText :=
    if decide (reason result = RecognizedSpeech)
    then "RECOGNIZED: Text=" +:+ text result
    else error_text in
  update_this (set_displayText (VStr displayText)).

(** *** The lifecycle methods *)

Definition init (context : Context) (notifyOutputChanged : HostCallback)
    (state : list (string * JsVal)) (container : ref) : M unit :=
  update_this (set__context (Some context));;
  div ← createElement "div";
  update_this (set__container (Some div));;
  update_this (set__notifyOutputChanged (Some notifyOutputChanged));;
  update_this (set__refreshData (Some BoundRefreshData));;
  label ← createElement "label";
  update_this (set_labelElement (Some label));;
  l ← deref "labelElement" labelElement;
  setAttribute l "class" "LinearRangeLabel";;
  l ← deref "labelElement" labelElement;
  setAttribute l "id" "lrclabel";;
  update_this (set_displayText (raw_value context));;
  l ← deref "labelElement" labelElement;
  set_innerHTML l
    (VStr (or_else (formatted (sampleProperty (parameters context))) "0"));;
  c ← deref "_container" _container;
  l ← deref "labelElement" labelElement;
  appendChild c l;;
  c ← deref "_container" _container;
  appendChild container c;;
  sttFromMic.

Definition refreshData (evt : unit) : M unit :=
  l ← deref "labelElement" labelElement;
  v ← read (fun w => displayText (this w));
  set_innerHTML l v;;
  f ← deref "_notifyOutputChanged" _notifyOutputChanged;
  call_notifyOutputChanged f.

Definition updateView (context : Context) : M unit :=
  update_this (set_displayText (raw_value context));;
  update_this (set__context (Some context));;
  l ← deref "labelElement" labelElement;
  set_innerHTML l
    (VStr (or_else (formatted (sampleProperty (parameters context))) "")).

Definition getOutputs : M IOutputs :=
  v ← read (fun w => displayText (this w));
  mret {| o_sampleProperty := v |}.

Definition destroy : M unit := mret tt.

(** ** The event loop *)

(** What can happen to the control: the host calls a lifecycle method,
    the token request of session [i] settles, or the recognizer of
    session [i] delivers its result.  Nothing calls [refreshData]: the
    bound method stored in [_refreshData] is never registered. *)
Inductive Event : Type :=
| HostInit (context : Context) (state : list (string * JsVal)) (container : ref)
| HostUpdateView (context : Context)
| HostGetOutputs
| HostDestroy
| TokenSettled (i : nat) (settled : AxiosOutcome)
| Recognized (i : nat) (result : SpeechRecognitionResult).

Definition set_session (i : nat) (s : Session) (w : World) : World :=
  {| dom := dom w; this := this w; notified := notified w;
     sessions := <[i := s]> (sessions w) |}.

(** Session [i] resumes after its [await]: an exception of
    [getTokenOrRefresh] or of the rest of the body rejects the promise
    of [sttFromMic], which nobody observes. *)
Definition resume_session (i : nat) (settled : AxiosOutcome) (w : World) : World :=
  match getTokenOrRefresh_resume settled with
  | Throw e => set_session i (Faulted e) w
  | Ret tokenObj =>
      match sttFromMic_resume tokenObj w with
      | (Ret recognizer, w') => set_session i (AwaitingResult recognizer) w'
      | (Throw e, w') => set_session i (Faulted e) w'
      end
  end.

Definition step (w : World) (e : Event) : World :=
  match e with
  | HostInit context state container =>
      snd (init context NotifyOutputChanged state container w)
  | HostUpdateView context => snd (updateView context w)
  | HostGetOutputs => snd (getOutputs w)
  | HostDestroy => snd (destroy w)
  | TokenSettled i settled =>
      match sessions w !! i with
      | Some (AwaitingToken _) => resume_session i settled w
      | _ => w
      end
  | Recognized i result =>
      match sessions w !! i with
      | Some (AwaitingResult recognizer) =>
          set_session i (Completed recognizer) (snd (recognized_callback result w))
      | _ => w
      end
  end.

Definition run (w : World) (es : list Event) : World := foldl step w es.

(** The values [displayText] takes, one per event. *)
Fixpoint displayTexts (w : World) (es : list Event) : list JsVal :=
  match es with
  | [] => []
  | e :: es' => displayText (this (step w e)) :: displayTexts (step w e) es'
  end.

End Methods.

(** A page with the host's container [div] at reference [0], and a
    control that has just been constructed. *)
Definition fresh_world : World :=
  {| dom := [new_element "div"]; this := constructor; notified := 0;
     sessions := [] |}.

(** A factory that accepts every argument. *)
Definition lenient_env : Env :=
  {| SPEECH_KEY := VStr "key"; sdk_rejects := fun _ _ => None |}.

(** The argument checks of the SDK's [fromAuthorizationToken]: it throws
    for a token that is [null] or [undefined], and then for a region that
    is blank (empty, or ASCII white space only). *)
Definition is_white (c : Ascii.ascii) : bool :=
  let n := Ascii.nat_of_ascii c in
  Nat.eqb n 32 || (Nat.leb 9 n && Nat.leb n 13).

Fixpoint is_blank (s : string) : bool :=
  match s with
  | EmptyString => true
  | String c s' => is_white c && is_blank s'
  end.

Definition sdk_contract (token : JsVal) (reg : string) : option Exn :=
  if is_nullish token then Some (SdkError "authorizationToken")
  else if is_blank reg then Some (SdkError "region")
  else None.

Definition strict_env : Env :=
  {| SPEECH_KEY := VStr "key"; sdk_rejects := sdk_contract |}.

(** The Display Text that the completion callback computes for a result. *)
Definition outcome_text (result : SpeechRecognitionResult) : string :=
  if decide (reason result = RecognizedSpeech)
  then "RECOGNIZED: Text=" +:+ text result
  else error_text.

(** ** Measures on event sequences *)

Definition is_init (e : Event) : bool :=
  match e with HostInit _ _ _ => true | _ => false end.

(** The number of [init] calls among the events. *)
Definition inits (es : list Event) : nat := length (filter is_init es).

(** The bound raw value that a host call carries is not [null]; events
    without a property bag qualify. *)
Definition bound_raw_present (e : Event) : bool :=
  match e with
  | HostInit context _ _ | HostUpdateView context =>
      match raw (sampleProperty (parameters context)) with
      | Some _ => true
      | None => false
      end
  | _ => true
  end.

(** The events whose handler contains a DOM call: the two lifecycle
    methods [init] and [updateView]. *)
Definition touches_dom (e : Event) : bool :=
  match e with
  | HostInit _ _ _ | HostUpdateView _ => true
  | _ => false
  end.

(** Every request that a session waits for is the one that
    [getTokenOrRefresh] builds. *)
Definition requests_canonical (env : Env) (l : list Session) : Prop :=
  Forall (fun s => forall req, s = AwaitingToken req -> req = getTokenOrRefresh_request env) l.

(** The elements that [init] creates, as they are when it returns: the
    inner [div] holding the label [l], and the label with its text. *)
Definition init_div (l : ref) : Element :=
  {| tagName := "div"; attributes := []; childNodes := [Node l] |}.

Definition init_label (context : Context) : Element :=
  {| tagName := "label";
     attributes := [("class", "LinearRangeLabel"); ("id", "lrclabel")];
     childNodes := parsed (or_else (formatted (sampleProperty (parameters context))) "0") |}.

(** A bound property with a raw value and no formatted value. *)
Definition unformatted_context : Context :=
  {| parameters := {| sampleProperty := {| raw := Some "5"; formatted := None |} |} |}.

(** ** Sample inputs *)

Definition hi_context : Context :=
  {| parameters := {| sampleProperty := {| raw := Some "hi"; formatted := Some "hi" |} |} |}.

(** A bound property whose value is empty: [raw] is [null] and there is
    no formatted value. *)
Definition null_context : Context :=
  {| parameters := {| sampleProperty := {| raw := None; formatted := None |} |} |}.

Definition token_200 : AxiosOutcome :=
  Resolved {| status := 200; data := VStr "T" |}.

Definition denied_401 : AxiosOutcome :=
  Rejected {| message := "Request failed with status code 401";
              response := Some {| status := 401;
                                  data := VObj [("error", VStr "Access denied")] |} |}.

Definition network_error : AxiosOutcome :=
  Rejected {| message := "Network Error"; response := None |}.

(** The token object of a successful fetch of the token "T". *)
Definition success_token : TokenObj :=
  {| authToken := VStr "T"; tok_region := Some "westeurope"; error := VUndefined |}.

Definition hello : SpeechRecognitionResult :=
  {| reason := RecognizedSpeech; text := "hello" |}.

Definition silence : SpeechRecognitionResult :=
  {| reason := NoMatch; text := "" |}.

(** The world in which the first session is listening. *)
Definition listening_world : World :=
  run lenient_env fresh_world [HostInit hi_context [] 0; TokenSettled 0 token_200].

(** ** Basic facts about the methods *)

Section Facts.

Variable env : Env.

Lemma recognized_callback_spec result w :
  recognized_callback result w
  = (Ret tt,
     {| dom := dom w; this := set_displayText (VStr (outcome_text result)) (this w);
        notified := notified w; sessions := sessions w |}).
Proof. reflexivity. Qed.

(** [updateView] throws when the label is missing, after its two field
    assignments; both cases are run to the end. *)
Ltac run_updateView :=
  unfold updateView, mbind, M_bind, deref; cbn;
  match goal with
  | |- context [labelElement (this ?w)] => destruct (labelElement (this w)); reflexivity
  end.

Lemma updateView_displayText context w :
  displayText (this (snd (updateView context w))) = raw_value context.
Proof. run_updateView. Qed.

Lemma updateView_sessions context w :
  sessions (snd (updateView context w)) = sessions w.
Proof. run_updateView. Qed.

Lemma updateView_notified context w :
  notified (snd (updateView context w)) = notified w.
Proof. run_updateView. Qed.

Lemma init_displayText context f state container w :
  displayText (this (snd (init env context f state container w))) = raw_value context.
Proof. reflexivity. Qed.

Lemma init_sessions context f state container w :
  sessions (snd (init env context f state container w))
  = sessions w ++ [AwaitingToken (getTokenOrRefresh_request env)].
Proof. reflexivity. Qed.

Lemma init_notified context f state container w :
  notified (snd (init env context f state container w)) = notified w.
Proof. reflexivity. Qed.

(** The body of [sttFromMic] after the [await]: the factory is called
    with the token and [region || ""], whatever the token is. *)
Lemma sttFromMic_resume_accepted tokenObj w :
  sdk_rejects env (authToken tokenObj) (or_else (tok_region tokenObj) "") = None ->
  sttFromMic_resume env tokenObj w
  = (Ret {| speechConfig :=
              {| authorizationToken := authToken tokenObj;
                 region := or_else (tok_region tokenObj) "";
                 speechRecognitionLanguage := "en-US" |};
            audioConfig := DefaultMicrophoneInput |},
     {| dom := dom w; this := set_displayText (VStr listening_text) (this w);
        notified := notified w; sessions := sessions w |}).
Proof.
  intros Hok. unfold sttFromMic_resume, fromAuthorizationToken, mbind, M_bind.
  rewrite Hok. reflexivity.
Qed.

Lemma sttFromMic_resume_rejected tokenObj e w :
  sdk_rejects env (authToken tokenObj) (or_else (tok_region tokenObj) "") = Some e ->
  sttFromMic_resume env tokenObj w = (Throw e, w).
Proof.
  intros Hko. unfold sttFromMic_resume, fromAuthorizationToken, mbind, M_bind.
  rewrite Hko. reflexivity.
Qed.

(** The catch block returns the failure object whenever the rejection
    carries a response. *)
Lemma getTokenOrRefresh_resume_response msg r :
  getTokenOrRefresh_resume (Rejected {| message := msg; response := Some r |})
  = Ret {| authToken := VNull; tok_region := None; error := data r |}.
Proof. reflexivity. Qed.

Lemma resume_session_notified i settled w :
  notified (resume_session env i settled w) = notified w.
Proof.
  unfold resume_session.
  destruct (getTokenOrRefresh_resume settled) as [tokenObj|e]; [|reflexivity].
  destruct (sdk_rejects env (authToken tokenObj) (or_else (tok_region tokenObj) ""))
    as [e|] eqn:Hsdk.
  - rewrite (sttFromMic_resume_rejected _ _ _ Hsdk). reflexivity.
  - rewrite (sttFromMic_resume_accepted _ _ Hsdk). reflexivity.
Qed.

Lemma resume_session_dom i settled w :
  dom (resume_session env i settled w) = dom w.
Proof.
  unfold resume_session.
  destruct (getTokenOrRefresh_resume settled) as [tokenObj|e]; [|reflexivity].
  destruct (sdk_rejects env (authToken tokenObj) (or_else (tok_region tokenObj) ""))
    as [e|] eqn:Hsdk.
  - rewrite (sttFromMic_resume_rejected _ _ _ Hsdk). reflexivity.
  - rewrite (sttFromMic_resume_accepted _ _ Hsdk). reflexivity.
Qed.

(** The steps of a session, as equations. *)
Lemma step_init_lookup context state container w :
  sessions (step env w (HostInit context state container)) !! length (sessions w)
  = Some (AwaitingToken (getTokenOrRefresh_request env)).
Proof.
  cbn [step]. rewrite init_sessions. by apply list_lookup_middle.
Qed.

Lemma step_token_settled w i req settled tokenObj :
  sessions w !! i = Some (AwaitingToken req) ->
  getTokenOrRefresh_resume settled = Ret tokenObj ->
  sdk_rejects env (authToken tokenObj) (or_else (tok_region tokenObj) "") = None ->
  step env w (TokenSettled i settled)
  = {| dom := dom w;
       this := set_displayText (VStr listening_text) (this w);
       notified := notified w;
       sessions :=
         <[i := AwaitingResult
                  {| speechConfig :=
                       {| authorizationToken := authToken tokenObj;
                          region := or_else (tok_region tokenObj) "";
                          speechRecognitionLanguage := "en-US" |};
                     audioConfig := DefaultMicrophoneInput |}]> (sessions w) |}.
Proof.
  intros Hs Htok Hsdk. cbn [step]. rewrite Hs. unfold resume_session.
  rewrite Htok, (sttFromMic_resume_accepted _ _ Hsdk). reflexivity.
Qed.

Lemma step_token_settled_lookup w i req settled tokenObj :
  sessions w !! i = Some (AwaitingToken req) ->
  getTokenOrRefresh_resume settled = Ret tokenObj ->
  sdk_rejects env (authToken tokenObj) (or_else (tok_region tokenObj) "") = None ->
  sessions (step env w (TokenSettled i settled)) !! i
  = Some (AwaitingResult
            {| speechConfig :=
                 {| authorizationToken := authToken tokenObj;
                    region := or_else (tok_region tokenObj) "";
                    speechRecognitionLanguage := "en-US" |};
               audioConfig := DefaultMicrophoneInput |}).
Proof.
  intros Hs Htok Hsdk. rewrite (step_token_settled _ _ _ _ _ Hs Htok Hsdk).
  cbn [sessions]. apply list_lookup_insert_eq. by eapply lookup_lt_Some.
Qed.

Lemma step_recognized w i recognizer result :
  sessions w !! i = Some (AwaitingResult recognizer) ->
  step env w (Recognized i result)
  = {| dom := dom w;
       this := set_displayText (VStr (outcome_text result)) (this w);
       notified := notified w;
       sessions := <[i := Completed recognizer]> (sessions w) |}.
Proof. intros Hs. cbn [step]. rewrite Hs. reflexivity. Qed.

(** A result cannot be delivered to a session that still waits for its
    token. *)
Lemma step_recognized_too_early w i req result :
  sessions w !! i = Some (AwaitingToken req) ->
  step env w (Recognized i result) = w.
Proof. intros Hs. cbn [step]. rewrite Hs. reflexivity. Qed.

(** No event makes the control call the host's [notifyOutputChanged]. *)
Lemma step_notified w e : notified (step env w e) = notified w.
Proof.
  destruct e as [context state container|context| | |i settled|i result]; cbn [step].
  - apply init_notified.
  - apply updateView_notified.
  - reflexivity.
  - reflexivity.
  - destruct (sessions w !! i) as [[]|]; auto using resume_session_notified.
  - destruct (sessions w !! i) as [[]|]; reflexivity.
Qed.

Lemma run_notified es : forall w, notified (run env w es) = notified w.
Proof.
  induction es as [|e es IH]; intros w; [reflexivity|].
  cbn. unfold run in IH. rewrite IH. apply step_notified.
Qed.

End Facts.

(** * The claims *)

(** C1.  The claim: the completion callback of the recognition attempt
    calls [refreshData], which writes Display Text into the label and
    notifies the host.  The code does not: for every world and every
    result the completion leaves the DOM and the host's notification count
    as they were.  On the run init, token, result "hello" (no formatted
    value bound) the field holds the transcript while the label still holds
    what the parser made of "0" and the host was never notified;
    [refreshData], had it been called, would have written the transcript
    into the label and notified once. *)
Theorem C1_completion_skips_refresh :
  (forall env w i result,
      dom (step env w (Recognized i result)) = dom w /\
      notified (step env w (Recognized i result)) = notified w) /\
  let w := run lenient_env fresh_world
             [HostInit null_context [] 0; TokenSettled 0 token_200; Recognized 0 hello] in
  displayText (this w) = VStr "RECOGNIZED: Text=hello" /\
  labelElement (this w) = Some 2 /\
  dom w !! 2
  = Some {| tagName := "label";
            attributes := [("class", "LinearRangeLabel"); ("id", "lrclabel")];
            childNodes := [Fragment "0"] |} /\
  notified w = 0 /\
  dom (snd (refreshData tt w)) !! 2
  = Some {| tagName := "label";
            attributes := [("class", "LinearRangeLabel"); ("id", "lrclabel")];
            childNodes := [Fragment "RECOGNIZED: Text=hello"] |} /\
  notified (snd (refreshData tt w)) = 1.
Proof.
  split.
  - intros env w i result. cbn [step].
    destruct (sessions w !! i) as [[]|]; split; reflexivity.
  - vm_compute. repeat split.
Qed.

(** C2.  When the recognizer of a listening session delivers its result,
    Display Text becomes "RECOGNIZED: Text=" followed by the recognized
    text if the reason is RecognizedSpeech, and the fixed error sentence
    for every other reason. *)
Theorem C2_display_text_of_result env w i recognizer result :
  sessions w !! i = Some (AwaitingResult recognizer) ->
  let w' := step env w (Recognized i result) in
  (reason result = RecognizedSpeech ->
   displayText (this w') = VStr ("RECOGNIZED: Text=" +:+ text result)) /\
  (reason result <> RecognizedSpeech ->
   displayText (this w') =
     VStr "ERROR: Speech was cancelled or could not be recognized. Ensure your microphone is working properly.").
Proof.
  intros Hs w'. subst w'. rewrite (step_recognized _ _ _ _ _ Hs).
  cbn. unfold outcome_text.
  split; intros Hr; destruct (decide (reason result = RecognizedSpeech));
    try contradiction; reflexivity.
Qed.

Lemma C2_display_text_of_result_witness :
  displayText (this (step lenient_env listening_world (Recognized 0 hello)))
    = VStr "RECOGNIZED: Text=hello" /\
  displayText (this (step lenient_env listening_world (Recognized 0 silence)))
    = VStr "ERROR: Speech was cancelled or could not be recognized. Ensure your microphone is working properly.".
Proof.
  split.
  - apply (proj1 (C2_display_text_of_result lenient_env listening_world 0 _ hello eq_refl)).
    reflexivity.
  - apply (proj2 (C2_display_text_of_result lenient_env listening_world 0 _ silence eq_refl)).
    discriminate.
Defined.

(** C3.  The claim: every failing token fetch yields the object with a
    null token and the error payload, and no exception escapes.  The code
    departs from it when the request fails without an answer from the
    server: [err.response] is [undefined], the read of [err.response.data]
    in the catch block throws a TypeError, the session ends faulted and
    the placeholder is never written. *)
Theorem C3_transport_failure_escapes :
  getTokenOrRefresh_resume network_error
    = Throw (TypeError "Cannot read properties of undefined (reading 'data')") /\
  let w := run lenient_env fresh_world
             [HostInit hi_context [] 0; TokenSettled 0 network_error] in
  sessions w = [Faulted (TypeError "Cannot read properties of undefined (reading 'data')")] /\
  displayText (this w) = VStr "hi".
Proof. vm_compute. repeat split. Qed.

(** C4, as stated, fails: [init] stores the bound raw value as it is, so a
    [null] bound value leaves [null] in the field; and the field has no
    default, it is [undefined] on a control that was just constructed. *)
Lemma C4_counterexample :
  displayText (this (snd (init lenient_env null_context NotifyOutputChanged [] 0 fresh_world)))
    = VNull /\
  is_string
    (displayText (this (snd (init lenient_env null_context NotifyOutputChanged [] 0 fresh_world))))
    = false /\
  displayText constructor = VUndefined /\
  displayText constructor <> VStr "".
Proof. vm_compute. repeat split. discriminate. Qed.

(** C4, amended.  Display Text holds a string after every write, provided
    the bound raw value of [init] and [updateView] is not [null]: those two
    store the bound value as it is ([null] for a [null] bound value), and
    the recognition flow (placeholder, result) always stores a string.
    The field has no default: it is [undefined] until [init]. *)
Theorem C4_displayText_string env w :
  (forall context f state container,
      raw (sampleProperty (parameters context)) <> None ->
      is_string (displayText (this (snd (init env context f state container w)))) = true) /\
  (forall context,
      raw (sampleProperty (parameters context)) <> None ->
      is_string (displayText (this (snd (updateView context w)))) = true) /\
  (forall tokenObj recognizer w',
      sttFromMic_resume env tokenObj w = (Ret recognizer, w') ->
      is_string (displayText (this w')) = true) /\
  (forall result,
      is_string (displayText (this (snd (recognized_callback result w)))) = true) /\
  (forall context f state container,
      raw (sampleProperty (parameters context)) = None ->
      displayText (this (snd (init env context f state container w))) = VNull) /\
  (forall context,
      raw (sampleProperty (parameters context)) = None ->
      displayText (this (snd (updateView context w))) = VNull) /\
  displayText constructor = VUndefined.
Proof.
  repeat apply conj.
  - intros context f state container Hraw. rewrite init_displayText.
    unfold raw_value. destruct (raw _); [reflexivity|contradiction].
  - intros context Hraw. rewrite updateView_displayText.
    unfold raw_value. destruct (raw _); [reflexivity|contradiction].
  - intros tokenObj recognizer w' Hres.
    destruct (sdk_rejects env (authToken tokenObj) (or_else (tok_region tokenObj) ""))
      as [e|] eqn:Hsdk.
    + rewrite (sttFromMic_resume_rejected _ _ _ _ Hsdk) in Hres. discriminate.
    + rewrite (sttFromMic_resume_accepted _ _ _ Hsdk) in Hres.
      injection Hres as _ <-. reflexivity.
  - intros result. rewrite recognized_callback_spec. reflexivity.
  - intros context f state container Hraw. rewrite init_displayText.
    unfold raw_value. rewrite Hraw. reflexivity.
  - intros context Hraw. rewrite updateView_displayText.
    unfold raw_value. rewrite Hraw. reflexivity.
  - reflexivity.
Qed.

Lemma C4_displayText_string_witness :
  is_string
    (displayText (this (snd (init lenient_env hi_context NotifyOutputChanged [] 0 fresh_world))))
    = true /\
  is_string (displayText (this (snd (updateView hi_context fresh_world)))) = true /\
  is_string
    (displayText (this (snd (sttFromMic_resume lenient_env success_token fresh_world))))
    = true /\
  displayText (this (snd (updateView null_context fresh_world))) = VNull.
Proof.
  destruct (C4_displayText_string lenient_env fresh_world)
    as (Hinit & Hupd & Hres & _ & _ & Hnull & _).
  repeat apply conj.
  - apply Hinit. discriminate.
  - apply Hupd. discriminate.
  - apply (Hres success_token
             {| speechConfig :=
                  {| authorizationToken := VStr "T"; region := "westeurope";
                     speechRecognitionLanguage := "en-US" |};
                audioConfig := DefaultMicrophoneInput |}).
    reflexivity.
  - apply Hnull. reflexivity.
Defined.

(** C5, as stated, fails: the placeholder that the code writes is not
    "listening…". *)
Lemma C5_counterexample :
  displayText (this (run lenient_env fresh_world
                       [HostInit hi_context [] 0; TokenSettled 0 token_200]))
    = VStr "speak into your microphone..." /\
  displayText (this (run lenient_env fresh_world
                       [HostInit hi_context [] 0; TokenSettled 0 token_200]))
    <> VStr "listening…".
Proof. vm_compute. split; [reflexivity|discriminate]. Qed.

(** C5, amended.  For every initial bound value V, [init] leaves V in
    Display Text and a session waiting for its token; when the token
    request settles with a token object that the SDK accepts, Display Text
    is set to the placeholder "speak into your microphone..." before
    [recognizeOnceAsync] is started, so before any recognition result: a
    result addressed to the session earlier changes nothing.  With no
    [updateView] in between, the values of Display Text are V, the
    placeholder, the terminal outcome. *)
Theorem C5_placeholder_before_result env w context state container settled tokenObj result :
  getTokenOrRefresh_resume settled = Ret tokenObj ->
  sdk_rejects env (authToken tokenObj) (or_else (tok_region tokenObj) "") = None ->
  let n := length (sessions w) in
  displayTexts env w
    [HostInit context state container; TokenSettled n settled; Recognized n result]
  = [raw_value context; VStr "speak into your microphone..."; VStr (outcome_text result)] /\
  step env (step env w (HostInit context state container)) (Recognized n result)
  = step env w (HostInit context state container).
Proof.
  intros Htok Hsdk n.
  pose proof (step_init_lookup env context state container w) as H1.
  fold n in H1.
  pose proof (step_token_settled_lookup env _ _ _ _ _ H1 Htok Hsdk) as H2.
  split.
  - cbn [displayTexts]. rewrite (step_recognized env _ _ _ result H2).
    rewrite (step_token_settled env _ _ _ _ _ H1 Htok Hsdk).
    reflexivity.
  - by eapply step_recognized_too_early.
Qed.

Lemma C5_placeholder_before_result_witness :
  displayTexts lenient_env fresh_world
    [HostInit hi_context [] 0; TokenSettled 0 token_200; Recognized 0 hello]
  = [VStr "hi"; VStr "speak into your microphone..."; VStr "RECOGNIZED: Text=hello"].
Proof.
  apply (proj1 (C5_placeholder_before_result lenient_env fresh_world hi_context [] 0
                  token_200 success_token hello eq_refl eq_refl)).
Defined.

(** C6.  When the token request of a session is answered with token T
    (axios resolves, e.g. status 200), [getTokenOrRefresh] returns T with
    the region "westeurope", and (the SDK accepting these arguments) the
    session then listens on a recognizer whose configuration holds the
    authorization token T, the region "westeurope" and the language
    "en-US". *)
Theorem C6_client_configured_with_token env w i req code T :
  sessions w !! i = Some (AwaitingToken req) ->
  sdk_rejects env (VStr T) "westeurope" = None ->
  let settled := Resolved {| status := code; data := VStr T |} in
  getTokenOrRefresh_resume settled
  = Ret {| authToken := VStr T; tok_region := Some "westeurope"; error := VUndefined |} /\
  sessions (step env w (TokenSettled i settled)) !! i
  = Some (AwaitingResult
            {| speechConfig :=
                 {| authorizationToken := VStr T; region := "westeurope";
                    speechRecognitionLanguage := "en-US" |};
               audioConfig := DefaultMicrophoneInput |}).
Proof.
  intros Hs Hsdk settled. split; [reflexivity|].
  apply (step_token_settled_lookup env w i req settled
           {| authToken := VStr T; tok_region := Some "westeurope"; error := VUndefined |});
    [assumption|reflexivity|exact Hsdk].
Qed.

Lemma C6_client_configured_with_token_witness :
  sessions (step lenient_env (step lenient_env fresh_world (HostInit hi_context [] 0))
              (TokenSettled 0 token_200)) !! 0
  = Some (AwaitingResult
            {| speechConfig :=
                 {| authorizationToken := VStr "T"; region := "westeurope";
                    speechRecognitionLanguage := "en-US" |};
               audioConfig := DefaultMicrophoneInput |}).
Proof.
  apply (proj2 (C6_client_configured_with_token lenient_env
                  (step lenient_env fresh_world (HostInit hi_context [] 0)) 0
                  (getTokenOrRefresh_request lenient_env) 200 "T" eq_refl eq_refl)).
Defined.

(** C7, as stated, fails.  The SDK's factory rejects a null token: the
    session of a token request that failed with an answer from the server
    calls the factory with the null token and is ended by the factory's
    exception; the placeholder is not written, the recognition attempt is
    not started, and no result can reach the session. *)
Lemma C7_counterexample :
  let w := run strict_env fresh_world
             [HostInit hi_context [] 0; TokenSettled 0 denied_401] in
  getTokenOrRefresh_resume denied_401
  = Ret {| authToken := VNull; tok_region := None;
           error := VObj [("error", VStr "Access denied")] |} /\
  sessions w = [Faulted (SdkError "authorizationToken")] /\
  displayText (this w) = VStr "hi" /\
  displayText (this w) <> VStr "speak into your microphone..." /\
  step strict_env w (Recognized 0 hello) = w.
Proof. vm_compute. repeat split. discriminate. Qed.

(** C7, amended.  When the token request fails with an answer from the
    server, [getTokenOrRefresh] returns a null token and no region, and the
    session does not check it: it calls the SDK's factory with the null
    token and the empty string for the region.  What follows is the
    factory's decision on these two arguments: if it throws (as the SDK's
    factory does for a null token), the session ends faulted with that
    exception and the control and the DOM are as before; only if it
    returns does the session write the placeholder and start the
    recognition attempt, on a recognizer configured with the null token,
    the empty region and "en-US". *)
Theorem C7_null_token_not_checked env w i req msg r :
  sessions w !! i = Some (AwaitingToken req) ->
  let settled := Rejected {| message := msg; response := Some r |} in
  let w' := step env w (TokenSettled i settled) in
  getTokenOrRefresh_resume settled
  = Ret {| authToken := VNull; tok_region := None; error := data r |} /\
  match sdk_rejects env VNull "" with
  | Some e =>
      sessions w' !! i = Some (Faulted e) /\ this w' = this w /\ dom w' = dom w
  | None =>
      sessions w' !! i
      = Some (AwaitingResult
                {| speechConfig :=
                     {| authorizationToken := VNull; region := "";
                        speechRecognitionLanguage := "en-US" |};
                   audioConfig := DefaultMicrophoneInput |}) /\
      displayText (this w') = VStr "speak into your microphone..."
  end.
Proof.
  intros Hs settled w'. split; [reflexivity|].
  assert (Hi : i < length (sessions w)) by (by eapply lookup_lt_Some).
  assert (Htok : getTokenOrRefresh_resume settled
                 = Ret {| authToken := VNull; tok_region := None; error := data r |})
    by reflexivity.
  subst w'. cbn [step]. rewrite Hs. unfold resume_session. rewrite Htok.
  destruct (sdk_rejects env VNull "") as [e|] eqn:Hsdk.
  - rewrite (sttFromMic_resume_rejected env
               {| authToken := VNull; tok_region := None; error := data r |} e w Hsdk).
    cbn. repeat apply conj; try reflexivity. by apply list_lookup_insert_eq.
  - rewrite (sttFromMic_resume_accepted env
               {| authToken := VNull; tok_region := None; error := data r |} w Hsdk).
    cbn. split; [by apply list_lookup_insert_eq|reflexivity].
Qed.

Lemma C7_null_token_not_checked_witness :
  sessions (step strict_env (step strict_env fresh_world (HostInit hi_context [] 0))
              (TokenSettled 0 denied_401)) !! 0
  = Some (Faulted (SdkError "authorizationToken")) /\
  sessions (step lenient_env (step lenient_env fresh_world (HostInit hi_context [] 0))
              (TokenSettled 0 denied_401)) !! 0
  = Some (AwaitingResult
            {| speechConfig :=
                 {| authorizationToken := VNull; region := "";
                    speechRecognitionLanguage := "en-US" |};
               audioConfig := DefaultMicrophoneInput |}).
Proof.
  split.
  - exact (proj1 (proj2 (C7_null_token_not_checked strict_env
                           (step strict_env fresh_world (HostInit hi_context [] 0)) 0
                           (getTokenOrRefresh_request strict_env) _ _ eq_refl))).
  - exact (proj1 (proj2 (C7_null_token_not_checked lenient_env
                           (step lenient_env fresh_world (HostInit hi_context [] 0)) 0
                           (getTokenOrRefresh_request lenient_env) _ _ eq_refl))).
Defined.

(** C8.  [updateView] overwrites Display Text with the newly bound raw
    value in every world and leaves the sessions as they are; when
    [updateView] and the completion of a listening session both write
    Display Text, the later write decides the final value. *)
Theorem C8_updateView_last_write_wins env w context :
  displayText (this (step env w (HostUpdateView context))) = raw_value context /\
  sessions (step env w (HostUpdateView context)) = sessions w /\
  (forall i recognizer result,
      sessions w !! i = Some (AwaitingResult recognizer) ->
      displayText (this (run env w [HostUpdateView context; Recognized i result]))
      = VStr (outcome_text result) /\
      displayText (this (run env w [Recognized i result; HostUpdateView context]))
      = raw_value context).
Proof.
  repeat apply conj.
  - apply updateView_displayText.
  - apply updateView_sessions.
  - intros i recognizer result Hs. cbn [run foldl]. split.
    + rewrite (step_recognized env _ i recognizer); [reflexivity|].
      cbn [step]. rewrite updateView_sessions. exact Hs.
    + apply updateView_displayText.
Qed.

Lemma C8_updateView_last_write_wins_witness :
  displayText (this (run lenient_env listening_world
                       [HostUpdateView hi_context; Recognized 0 hello]))
  = VStr "RECOGNIZED: Text=hello" /\
  displayText (this (run lenient_env listening_world
                       [Recognized 0 hello; HostUpdateView hi_context]))
  = VStr "hi".
Proof.
  destruct (C8_updateView_last_write_wins lenient_env listening_world hi_context)
    as (_ & _ & Hrace).
  exact (Hrace 0 _ hello eq_refl).
Defined.

(** C9.  [getOutputs] returns the current Display Text as the bound output
    and leaves the world as it is; so it returns the bound value after
    [updateView], the placeholder once a session listens, and the outcome
    after the completion, whichever was written last. *)
Theorem C9_getOutputs_reads_displayText env w :
  getOutputs w = (Ret {| o_sampleProperty := displayText (this w) |}, w) /\
  step env w HostGetOutputs = w /\
  (forall context,
      fst (getOutputs (step env w (HostUpdateView context)))
      = Ret {| o_sampleProperty := raw_value context |}) /\
  (forall tokenObj,
      sdk_rejects env (authToken tokenObj) (or_else (tok_region tokenObj) "") = None ->
      fst (getOutputs (snd (sttFromMic_resume env tokenObj w)))
      = Ret {| o_sampleProperty := VStr "speak into your microphone..." |}) /\
  (forall result,
      fst (getOutputs (snd (recognized_callback result w)))
      = Ret {| o_sampleProperty := VStr (outcome_text result) |}).
Proof.
  repeat apply conj.
  - reflexivity.
  - reflexivity.
  - intros context. cbn [step].
    change (fst (getOutputs ?x)) with (Ret {| o_sampleProperty := displayText (this x) |}).
    by rewrite updateView_displayText.
  - intros tokenObj Hsdk. by rewrite (sttFromMic_resume_accepted _ _ _ Hsdk).
  - intros result. by rewrite recognized_callback_spec.
Qed.

Lemma C9_getOutputs_reads_displayText_witness :
  fst (getOutputs (snd (sttFromMic_resume lenient_env success_token fresh_world)))
  = Ret {| o_sampleProperty := VStr "speak into your microphone..." |}.
Proof.
  destruct (C9_getOutputs_reads_displayText lenient_env fresh_world)
    as (_ & _ & _ & Hlisten & _).
  apply Hlisten. reflexivity.
Defined.

(** C10.  [destroy] returns with the world unchanged: Display Text, the
    DOM with the label, and the sessions are as before; a pending token
    request or recognition attempt is not cancelled, every later event
    has the effect it would have had without the call. *)
Theorem C10_destroy_changes_nothing env w :
  destroy w = (Ret tt, w) /\
  step env w HostDestroy = w /\
  (forall e, step env (step env w HostDestroy) e = step env w e).
Proof. repeat split. Qed.

(** * Further properties of the methods *)

Ltac run_method :=
  unfold init, refreshData, updateView, sttFromMic, createElement, setAttribute,
    set_innerHTML, appendChild, call_notifyOutputChanged, deref, update_this,
    update_dom, update_sessions, write, read, mbind, M_bind, mret, M_ret;
  cbn.

Section Dom.

Variable env : Env.

Lemma alter_at_end {A : Type} (f : A -> A) (d : list A) (x : A) :
  alter f (length d) (d ++ [x]) = d ++ [f x].
Proof. induction d as [|a d IH]; [reflexivity|]. cbn. by f_equal. Qed.

(** The DOM when [init] returns, for a container that exists. *)
Lemma init_dom context f state container w :
  container < length (dom w) ->
  dom (snd (init env context f state container w))
  = alter (with_child (length (dom w))) container (dom w)
    ++ [init_div (S (length (dom w))); init_label context].
Proof.
  intros Hc. run_method.
  assert (Hlen : length (dom w ++ [new_element "div"]) = S (length (dom w)))
    by (rewrite length_app; cbn; lia).
  rewrite !alter_at_end.
  rewrite (alter_app_l _ (dom w ++ [new_element "div"])) by lia.
  rewrite alter_at_end.
  rewrite <- app_assoc.
  rewrite alter_app_l by exact Hc.
  rewrite Hlen. reflexivity.
Qed.

Lemma init_this context f state container w :
  this (snd (init env context f state container w))
  = {| _container := Some (length (dom w)); _context := Some context;
       _notifyOutputChanged := Some f; _refreshData := Some BoundRefreshData;
       labelElement := Some (S (length (dom w))); displayText := raw_value context |}.
Proof.
  run_method. rewrite length_app. cbn.
  replace (length (dom w) + 1) with (S (length (dom w))) by lia. reflexivity.
Qed.

(** [updateView] on a control that has its label. *)
Lemma updateView_with_label context l w :
  labelElement (this w) = Some l ->
  updateView context w
  = (Ret tt,
     {| dom := alter (with_innerHTML
                        (or_else (formatted (sampleProperty (parameters context))) ""))
                 l (dom w);
        this := set__context (Some context) (set_displayText (raw_value context) (this w));
        notified := notified w; sessions := sessions w |}).
Proof. intros Hl. run_method. rewrite Hl. reflexivity. Qed.

Lemma updateView_without_label context w :
  labelElement (this w) = None ->
  updateView context w
  = (Throw (TypeError "Cannot read properties of undefined: labelElement"),
     {| dom := dom w;
        this := set__context (Some context) (set_displayText (raw_value context) (this w));
        notified := notified w; sessions := sessions w |}).
Proof. intros Hl. run_method. rewrite Hl. reflexivity. Qed.

End Dom.

(** X1.  [init] with an existing container returns normally and builds
    the tree container, new [div], new [label]: [_container] and
    [labelElement] refer to the two elements made by [createElement]; the
    [div] has the label as its only child; the label carries the class
    LinearRangeLabel and the id lrclabel, and its children are what the
    HTML parser makes of the formatted value (of "0" when that is missing
    or empty), so markup in the formatted value is parsed, not shown; the
    container gains the [div] as its last child and no other element that
    existed before is changed. *)
Theorem X1_init_builds_label_tree env context f state container w :
  container < length (dom w) ->
  let n := length (dom w) in
  let w' := snd (init env context f state container w) in
  fst (init env context f state container w) = Ret tt /\
  _container (this w') = Some n /\
  labelElement (this w') = Some (S n) /\
  dom w' !! n
  = Some {| tagName := "div"; attributes := []; childNodes := [Node (S n)] |} /\
  dom w' !! S n
  = Some {| tagName := "label";
            attributes := [("class", "LinearRangeLabel"); ("id", "lrclabel")];
            childNodes :=
              parsed (or_else (formatted (sampleProperty (parameters context))) "0") |} /\
  dom w' !! container = with_child n <$> dom w !! container /\
  (forall j, j <> container -> j < n -> dom w' !! j = dom w !! j).
Proof.
  intros Hc n w'. subst w' n.
  rewrite (init_dom env _ _ _ _ _ Hc), init_this.
  repeat apply conj; try reflexivity.
  - apply list_lookup_middle. by rewrite length_alter.
  - rewrite lookup_app_r by (rewrite length_alter; lia). rewrite length_alter.
    replace (S (length (dom w)) - length (dom w)) with 1 by lia. reflexivity.
  - rewrite lookup_app_l by (by rewrite length_alter). apply list_lookup_alter_eq.
  - intros j Hj Hlt. rewrite lookup_app_l by (by rewrite length_alter).
    by apply list_lookup_alter_ne.
Qed.

Lemma X1_init_builds_label_tree_witness :
  dom (snd (init lenient_env hi_context NotifyOutputChanged [] 0 fresh_world)) !! 2
  = Some {| tagName := "label";
            attributes := [("class", "LinearRangeLabel"); ("id", "lrclabel")];
            childNodes := [Fragment "hi"] |} /\
  dom (snd (init lenient_env hi_context NotifyOutputChanged [] 0 fresh_world)) !! 0
  = Some {| tagName := "div"; attributes := []; childNodes := [Node 1] |}.
Proof.
  assert (Hc : 0 < length (dom fresh_world)) by (cbn; lia).
  destruct (X1_init_builds_label_tree lenient_env hi_context NotifyOutputChanged [] 0
              fresh_world Hc) as (_ & _ & _ & _ & Hlabel & Hcont & _).
  split; [exact Hlabel|exact Hcont].
Defined.

(** X2.  The label's fallback text differs between the two writers: for a
    bound property whose formatted value is missing or empty, the label
    holds the text "0" when [init] returns and is empty after an
    [updateView] with the very same property bag; in neither case does it
    hold the raw value. *)
Theorem X2_label_fallback_differs env context f state container w :
  container < length (dom w) ->
  truthy (formatted (sampleProperty (parameters context))) = false ->
  let l := S (length (dom w)) in
  let w1 := snd (init env context f state container w) in
  let w2 := snd (updateView context w1) in
  dom w1 !! l
  = Some {| tagName := "label";
            attributes := [("class", "LinearRangeLabel"); ("id", "lrclabel")];
            childNodes := [Fragment "0"] |} /\
  dom w2 !! l
  = Some {| tagName := "label";
            attributes := [("class", "LinearRangeLabel"); ("id", "lrclabel")];
            childNodes := [] |} /\
  displayText (this w2) = raw_value context.
Proof.
  intros Hc Hf l w1 w2.
  assert (Hor : forall d, or_else (formatted (sampleProperty (parameters context))) d = d).
  { intros d. unfold or_else.
    destruct (formatted (sampleProperty (parameters context))); [|reflexivity].
    rewrite Hf. reflexivity. }
  assert (Hl1 : dom w1 !! l
                = Some {| tagName := "label";
                          attributes := [("class", "LinearRangeLabel"); ("id", "lrclabel")];
                          childNodes := [Fragment "0"] |}).
  { subst w1 l. rewrite (init_dom env _ _ _ _ _ Hc).
    rewrite lookup_app_r by (rewrite length_alter; lia).
    rewrite length_alter.
    replace (S (length (dom w)) - length (dom w)) with 1 by lia.
    cbn. unfold init_label. rewrite Hor. reflexivity. }
  assert (Hlab : labelElement (this w1) = Some l).
  { subst w1 l. rewrite init_this. reflexivity. }
  repeat apply conj.
  - exact Hl1.
  - subst w2. rewrite (updateView_with_label _ _ _ Hlab). cbn [snd dom].
    rewrite list_lookup_alter_eq, Hl1, Hor. reflexivity.
  - apply updateView_displayText.
Qed.

Lemma X2_label_fallback_differs_witness :
  childNodes <$> dom (snd (init lenient_env unformatted_context NotifyOutputChanged [] 0
                             fresh_world)) !! 2
  = Some [Fragment "0"] /\
  childNodes <$> dom (snd (updateView unformatted_context
                             (snd (init lenient_env unformatted_context NotifyOutputChanged
                                     [] 0 fresh_world)))) !! 2
  = Some [].
Proof.
  assert (Hc : 0 < length (dom fresh_world)) by (cbn; lia).
  destruct (X2_label_fallback_differs lenient_env unformatted_context NotifyOutputChanged
              [] 0 fresh_world Hc eq_refl) as (H0 & Hempty & _).
  split; [exact (f_equal (fmap childNodes) H0)|exact (f_equal (fmap childNodes) Hempty)].
Defined.

(** X3.  [updateView] on a control whose label was never created (no
    [init] before) throws a TypeError, but only after it has overwritten
    Display Text and the stored context: the call fails half done, with the
    DOM, the notification count and the sessions untouched. *)
Theorem X3_updateView_before_init context w :
  labelElement (this w) = None ->
  let w' := snd (updateView context w) in
  (exists msg, fst (updateView context w) = Throw (TypeError msg)) /\
  displayText (this w') = raw_value context /\
  _context (this w') = Some context /\
  dom w' = dom w /\ notified w' = notified w /\ sessions w' = sessions w.
Proof.
  intros Hl w'. subst w'. rewrite (updateView_without_label _ _ Hl).
  repeat apply conj; try reflexivity. eexists. reflexivity.
Qed.

Lemma X3_updateView_before_init_witness :
  displayText (this (snd (updateView hi_context fresh_world))) = VStr "hi" /\
  dom (snd (updateView hi_context fresh_world)) = dom fresh_world.
Proof.
  destruct (X3_updateView_before_init hi_context fresh_world eq_refl)
    as (_ & Htext & _ & Hdom & _).
  split; [exact Htext|exact Hdom].
Defined.

(** X4.  [updateView] on a control that has its label returns normally
    and writes to one element only: the label keeps its tag and attributes
    and all its children are replaced by what the HTML parser makes of the
    formatted value (by nothing when that is missing or empty); every
    other element that a reference exists to, the notification count, the
    sessions and the references held by the control stay as they were. *)
Theorem X4_updateView_touches_only_label context (l : nat) w :
  labelElement (this w) = Some l ->
  let w' := snd (updateView context w) in
  fst (updateView context w) = Ret tt /\
  (forall e, dom w !! l = Some e ->
     dom w' !! l
     = Some {| tagName := tagName e; attributes := attributes e;
               childNodes :=
                 parsed (or_else (formatted (sampleProperty (parameters context))) "") |}) /\
  (forall j, j <> l -> dom w' !! j = dom w !! j) /\
  notified w' = notified w /\ sessions w' = sessions w /\
  labelElement (this w') = Some l /\ _container (this w') = _container (this w).
Proof.
  intros Hl w'. subst w'. rewrite (updateView_with_label _ _ _ Hl). cbn [fst snd dom].
  repeat apply conj; try reflexivity.
  - intros e He. rewrite list_lookup_alter_eq, He. reflexivity.
  - intros j Hj. apply list_lookup_alter_ne. congruence.
  - exact Hl.
Qed.

Lemma X4_updateView_touches_only_label_witness :
  dom (snd (updateView hi_context listening_world)) !! 2
  = Some {| tagName := "label";
            attributes := [("class", "LinearRangeLabel"); ("id", "lrclabel")];
            childNodes := [Fragment "hi"] |}.
Proof.
  destruct (X4_updateView_touches_only_label hi_context 2 listening_world eq_refl)
    as (_ & Hlabel & _).
  exact (Hlabel _ eq_refl).
Defined.

Section Refresh.

Lemma refreshData_ready evt (l : nat) f w :
  labelElement (this w) = Some l ->
  _notifyOutputChanged (this w) = Some f ->
  refreshData evt w
  = (Ret tt,
     {| dom := alter (with_innerHTML (DOMString_of (displayText (this w)))) l (dom w);
        this := this w; notified := S (notified w); sessions := sessions w |}).
Proof. intros Hl Hf. run_method. rewrite Hl. cbn. rewrite Hf. reflexivity. Qed.

Lemma refreshData_without_label evt w :
  labelElement (this w) = None ->
  refreshData evt w
  = (Throw (TypeError "Cannot read properties of undefined: labelElement"), w).
Proof. intros Hl. run_method. rewrite Hl. reflexivity. Qed.

Lemma refreshData_without_callback evt (l : nat) w :
  labelElement (this w) = Some l ->
  _notifyOutputChanged (this w) = None ->
  refreshData evt w
  = (Throw (TypeError "Cannot read properties of undefined: _notifyOutputChanged"),
     {| dom := alter (with_innerHTML (DOMString_of (displayText (this w)))) l (dom w);
        this := this w; notified := notified w; sessions := sessions w |}).
Proof. intros Hl Hf. run_method. rewrite Hl. cbn. rewrite Hf. reflexivity. Qed.

End Refresh.

(** X5.  [refreshData] on a control that has its label and the host's
    callback returns normally, notifies the host exactly once and writes
    to the label only: the label keeps its tag and attributes and all its
    children are replaced by what the HTML parser makes of Display Text,
    taken as markup (of the string itself when Display Text is the string
    that [getOutputs] returns, of the text "undefined" when it is
    [undefined]; by nothing when it is [null]).  The fields of the control,
    the sessions and every other element are not changed. *)
Theorem X5_refreshData_publishes evt (l : nat) f e w :
  labelElement (this w) = Some l ->
  _notifyOutputChanged (this w) = Some f ->
  dom w !! l = Some e ->
  let w' := snd (refreshData evt w) in
  fst (refreshData evt w) = Ret tt /\
  notified w' = S (notified w) /\
  this w' = this w /\ sessions w' = sessions w /\
  (forall j, j <> l -> dom w' !! j = dom w !! j) /\
  tagName <$> dom w' !! l = Some (tagName e) /\
  attributes <$> dom w' !! l = Some (attributes e) /\
  (forall s, displayText (this w) = VStr s ->
     childNodes <$> dom w' !! l = Some (parsed s) /\
     fst (getOutputs w') = Ret {| o_sampleProperty := VStr s |}) /\
  (displayText (this w) = VNull -> childNodes <$> dom w' !! l = Some []) /\
  (displayText (this w) = VUndefined ->
     childNodes <$> dom w' !! l = Some [Fragment "undefined"]).
Proof.
  intros Hl Hf He w'. subst w'. rewrite (refreshData_ready _ _ _ _ Hl Hf).
  cbn [fst snd dom this notified sessions].
  repeat apply conj; try reflexivity.
  - intros j Hj. apply list_lookup_alter_ne. congruence.
  - rewrite list_lookup_alter_eq, He. reflexivity.
  - rewrite list_lookup_alter_eq, He. reflexivity.
  - intros s Hd. split.
    + rewrite list_lookup_alter_eq, He, Hd. reflexivity.
    + unfold getOutputs, read, mbind, M_bind, mret, M_ret. cbn. rewrite Hd. reflexivity.
  - intros Hd. rewrite list_lookup_alter_eq, He, Hd. reflexivity.
  - intros Hd. rewrite list_lookup_alter_eq, He, Hd. reflexivity.
Qed.

Lemma X5_refreshData_publishes_witness :
  childNodes <$> dom (snd (refreshData tt listening_world)) !! 2
  = Some [Fragment "speak into your microphone..."] /\
  notified (snd (refreshData tt listening_world)) = 1.
Proof.
  destruct (X5_refreshData_publishes tt 2 NotifyOutputChanged _ listening_world
              eq_refl eq_refl eq_refl) as (_ & Hn & _ & _ & _ & _ & _ & Hs & _).
  split; [exact (proj1 (Hs _ eq_refl))|exact Hn].
Defined.

(** X6.  The two ways [refreshData] fails.  Without a label (the control
    was not initialized) it throws a TypeError and changes nothing.  With
    a label but without the host's callback it writes the label first and
    then throws: the host is not notified. *)
Theorem X6_refreshData_failures evt w :
  (labelElement (this w) = None ->
     (exists msg, fst (refreshData evt w) = Throw (TypeError msg)) /\
     snd (refreshData evt w) = w) /\
  (forall l : nat,
     labelElement (this w) = Some l ->
     _notifyOutputChanged (this w) = None ->
     (exists msg, fst (refreshData evt w) = Throw (TypeError msg)) /\
     notified (snd (refreshData evt w)) = notified w /\
     dom (snd (refreshData evt w))
     = alter (with_innerHTML (DOMString_of (displayText (this w)))) l (dom w)).
Proof.
  split.
  - intros Hl. rewrite (refreshData_without_label _ _ Hl).
    split; [eexists|]; reflexivity.
  - intros l Hl Hf. rewrite (refreshData_without_callback _ _ _ Hl Hf).
    repeat apply conj; try reflexivity. eexists. reflexivity.
Qed.

Lemma X6_refreshData_failures_witness :
  snd (refreshData tt fresh_world) = fresh_world.
Proof.
  exact (proj2 (proj1 (X6_refreshData_failures tt fresh_world) eq_refl)).
Defined.

(** X7.  Calling [refreshData] twice in a row leaves the DOM as one call
    does, while the host is notified once per call. *)
Theorem X7_refreshData_twice evt (l : nat) f w :
  labelElement (this w) = Some l ->
  _notifyOutputChanged (this w) = Some f ->
  let w1 := snd (refreshData evt w) in
  let w2 := snd (refreshData evt w1) in
  dom w2 = dom w1 /\ notified w2 = S (S (notified w)) /\ this w2 = this w.
Proof.
  intros Hl Hf w1 w2. subst w2 w1.
  rewrite (refreshData_ready _ _ _ _ Hl Hf). cbn [snd].
  rewrite (refreshData_ready _ l f); [|exact Hl|exact Hf].
  cbn [snd dom this notified]. repeat apply conj; try reflexivity.
  rewrite list_alter_alter_eq. apply list_alter_ext; [|reflexivity].
  intros x _. reflexivity.
Qed.

Lemma X7_refreshData_twice_witness :
  dom (snd (refreshData tt (snd (refreshData tt listening_world))))
  = dom (snd (refreshData tt listening_world)) /\
  notified (snd (refreshData tt (snd (refreshData tt listening_world)))) = 2.
Proof.
  destruct (X7_refreshData_twice tt 2 NotifyOutputChanged listening_world eq_refl eq_refl)
    as (Hdom & Hn & _).
  split; [exact Hdom|exact Hn].
Defined.

Section Runs.

Variable env : Env.

(** The session that resumes is replaced; the control is either left
    alone (the session faulted) or gets the placeholder. *)
Lemma resume_session_cases i settled w :
  (exists e, resume_session env i settled w = set_session i (Faulted e) w) \/
  (exists recognizer,
     resume_session env i settled w
     = {| dom := dom w; this := set_displayText (VStr listening_text) (this w);
          notified := notified w;
          sessions := <[i := AwaitingResult recognizer]> (sessions w) |}).
Proof.
  unfold resume_session.
  destruct (getTokenOrRefresh_resume settled) as [tokenObj|e]; [|left; by eexists].
  destruct (sdk_rejects env (authToken tokenObj) (or_else (tok_region tokenObj) ""))
    as [e|] eqn:Hsdk.
  - rewrite (sttFromMic_resume_rejected _ _ _ _ Hsdk). left. by eexists.
  - rewrite (sttFromMic_resume_accepted _ _ _ Hsdk). right. by eexists.
Qed.

Lemma inits_cons e es : inits (e :: es) = (if is_init e then 1 else 0) + inits es.
Proof. destruct e; reflexivity. Qed.

Lemma step_sessions_length w e :
  length (sessions (step env w e))
  = length (sessions w) + (if is_init e then 1 else 0).
Proof.
  destruct e as [context state container|context| | |i settled|i result]; cbn [step is_init].
  - rewrite init_sessions, length_app. cbn. lia.
  - rewrite updateView_sessions. lia.
  - change (snd (getOutputs w)) with w. lia.
  - change (snd (destroy w)) with w. lia.
  - destruct (sessions w !! i) as [[]|]; try lia.
    destruct (resume_session_cases i settled w) as [[e ->]|[r ->]];
      cbn; rewrite length_insert; lia.
  - destruct (sessions w !! i) as [[]|]; try lia.
    cbn. rewrite length_insert. lia.
Qed.

(** Apart from [init], no event changes the references that the control
    holds. *)
Lemma step_references w e :
  is_init e = false ->
  labelElement (this (step env w e)) = labelElement (this w) /\
  _notifyOutputChanged (this (step env w e)) = _notifyOutputChanged (this w).
Proof.
  destruct e as [context state container|context| | |i settled|i result];
    cbn [step is_init]; intros Hi; try discriminate.
  - destruct (labelElement (this w)) as [l|] eqn:Hl.
    + rewrite (updateView_with_label _ _ _ Hl). cbn. by rewrite Hl.
    + rewrite (updateView_without_label _ _ Hl). cbn. by rewrite Hl.
  - by cbn.
  - by cbn.
  - destruct (sessions w !! i) as [[]|]; try done.
    by destruct (resume_session_cases i settled w) as [[e ->]|[r ->]].
  - by destruct (sessions w !! i) as [[]|].
Qed.

Lemma step_ready w e :
  is_Some (labelElement (this w)) ->
  is_Some (_notifyOutputChanged (this w)) ->
  is_Some (labelElement (this (step env w e))) /\
  is_Some (_notifyOutputChanged (this (step env w e))).
Proof.
  intros Hl Hf. destruct (is_init e) eqn:Hi.
  - destruct e; try discriminate. cbn [step]. rewrite init_this. cbn. by split.
  - destruct (step_references w e Hi) as [-> ->]. by split.
Qed.

Lemma run_ready es : forall w,
  is_Some (labelElement (this w)) ->
  is_Some (_notifyOutputChanged (this w)) ->
  is_Some (labelElement (this (run env w es))) /\
  is_Some (_notifyOutputChanged (this (run env w es))).
Proof.
  induction es as [|e es IH]; intros w Hl Hf; [by split|].
  destruct (step_ready w e Hl Hf) as [Hl' Hf']. exact (IH _ Hl' Hf').
Qed.

Lemma step_string w e :
  bound_raw_present e = true ->
  is_string (displayText (this w)) = true ->
  is_string (displayText (this (step env w e))) = true.
Proof.
  destruct e as [context state container|context| | |i settled|i result];
    cbn [step bound_raw_present]; intros Hraw Hs.
  - rewrite init_displayText. unfold raw_value. by destruct (raw _).
  - rewrite updateView_displayText. unfold raw_value. by destruct (raw _).
  - exact Hs.
  - exact Hs.
  - destruct (sessions w !! i) as [[]|]; try done.
    by destruct (resume_session_cases i settled w) as [[e ->]|[r ->]].
  - by destruct (sessions w !! i) as [[]|].
Qed.

Lemma step_requests w e :
  requests_canonical env (sessions w) -> requests_canonical env (sessions (step env w e)).
Proof.
  unfold requests_canonical. intros Hw.
  destruct e as [context state container|context| | |i settled|i result]; cbn [step].
  - rewrite init_sessions. apply Forall_app. split; [exact Hw|].
    apply Forall_singleton. by intros req [= <-].
  - by rewrite updateView_sessions.
  - exact Hw.
  - exact Hw.
  - destruct (sessions w !! i) as [[]|]; try done.
    destruct (resume_session_cases i settled w) as [[e ->]|[r ->]];
      cbn; by apply Forall_insert.
  - destruct (sessions w !! i) as [[]|]; try done.
    cbn. by apply Forall_insert.
Qed.

Lemma run_requests es : forall w,
  requests_canonical env (sessions w) -> requests_canonical env (sessions (run env w es)).
Proof.
  induction es as [|e es IH]; intros w Hw; [exact Hw|].
  apply IH, step_requests, Hw.
Qed.

End Runs.

(** X8.  One token request per [init], no retry: over any sequence of
    events the number of sessions grows by the number of [init] calls; no
    other event (in particular no failed token request and no failed
    recognition) starts a session, and none removes one. *)
Theorem X8_one_session_per_init env es : forall w,
  length (sessions (run env w es)) = length (sessions w) + inits es.
Proof.
  induction es as [|e es IH]; intros w.
  - cbn. unfold inits. cbn. lia.
  - change (run env w (e :: es)) with (run env (step env w e) es).
    rewrite IH, step_sessions_length, inits_cons. lia.
Qed.

(** X9.  When the token request of a waiting session settles, the session
    either listens, with the placeholder in Display Text, or is faulted
    with the control exactly as before: a failure to obtain the token or to
    configure the recognizer is not shown in Display Text.  In both cases
    the DOM and the notification count are unchanged. *)
Theorem X9_token_settlement_outcomes env w i req settled :
  sessions w !! i = Some (AwaitingToken req) ->
  let w' := step env w (TokenSettled i settled) in
  dom w' = dom w /\ notified w' = notified w /\
  ((exists recognizer,
       sessions w' !! i = Some (AwaitingResult recognizer) /\
       displayText (this w') = VStr "speak into your microphone...") \/
   (exists e, sessions w' !! i = Some (Faulted e) /\ this w' = this w)).
Proof.
  intros Hs w'. subst w'. cbn [step]. rewrite Hs.
  assert (Hi : i < length (sessions w)) by (by eapply lookup_lt_Some).
  destruct (resume_session_cases env i settled w) as [[e ->]|[r ->]]; cbn.
  - repeat apply conj; try reflexivity. right. exists e.
    split; [by apply list_lookup_insert_eq|reflexivity].
  - repeat apply conj; try reflexivity. left. exists r.
    split; [by apply list_lookup_insert_eq|reflexivity].
Qed.

Lemma X9_token_settlement_outcomes_witness :
  dom (step lenient_env (step lenient_env fresh_world (HostInit hi_context [] 0))
         (TokenSettled 0 network_error))
  = dom (step lenient_env fresh_world (HostInit hi_context [] 0)).
Proof.
  apply (X9_token_settlement_outcomes lenient_env
           (step lenient_env fresh_world (HostInit hi_context [] 0)) 0
           (getTokenOrRefresh_request lenient_env) network_error eq_refl).
Defined.

(** X10.  Once [init] has run, the control stays usable: after any
    further events, [updateView] and [refreshData] return normally (no
    TypeError from a missing label or callback). *)
Theorem X10_no_throw_after_init env w context state container es context' evt :
  let w' := run env w (HostInit context state container :: es) in
  fst (updateView context' w') = Ret tt /\
  fst (refreshData evt w') = Ret tt.
Proof.
  intros w'.
  assert (Hready : is_Some (labelElement (this w')) /\
                   is_Some (_notifyOutputChanged (this w'))).
  { subst w'. change (run env w (HostInit context state container :: es))
      with (run env (step env w (HostInit context state container)) es).
    apply run_ready; cbn [step]; rewrite init_this; by cbn. }
  destruct Hready as [[l Hl] [f Hf]]. split.
  - by rewrite (updateView_with_label _ _ _ Hl).
  - by rewrite (refreshData_ready _ _ _ _ Hl Hf).
Qed.

(** X11.  The Display Text written by the completion callback tells the
    two outcomes apart and keeps the transcript: two results that lead to
    the same Display Text are both recognized speech or both not, and if
    recognized they carry the same text. *)
Theorem X11_outcome_text_is_faithful r1 r2 w1 w2 :
  displayText (this (snd (recognized_callback r1 w1)))
  = displayText (this (snd (recognized_callback r2 w2))) ->
  (reason r1 = RecognizedSpeech <-> reason r2 = RecognizedSpeech) /\
  (reason r1 = RecognizedSpeech -> text r1 = text r2).
Proof.
  rewrite !recognized_callback_spec. cbn. unfold outcome_text.
  destruct (decide (reason r1 = RecognizedSpeech)) as [H1|H1];
    destruct (decide (reason r2 = RecognizedSpeech)) as [H2|H2];
    cbn; intros Heq; try discriminate.
  - split; [tauto|]. intros _. by injection Heq.
  - split; [tauto|contradiction].
Qed.

Lemma X11_outcome_text_is_faithful_witness :
  text hello = text {| reason := RecognizedSpeech; text := "hello" |}.
Proof.
  apply (X11_outcome_text_is_faithful hello {| reason := RecognizedSpeech; text := "hello" |}
           fresh_world listening_world eq_refl).
  reflexivity.
Defined.

(** X12.  Display Text stays a string: if it holds a string and every
    property bag that the host passes afterwards has a non-null raw value,
    it holds a string after any sequence of events. *)
Theorem X12_string_is_kept env es : forall w,
  is_string (displayText (this w)) = true ->
  forallb bound_raw_present es = true ->
  is_string (displayText (this (run env w es))) = true.
Proof.
  induction es as [|e es IH]; intros w Hs Hes; [exact Hs|].
  cbn in Hes. apply andb_prop in Hes as [He Hes].
  apply IH; [|exact Hes]. by apply step_string.
Qed.

Lemma X12_string_is_kept_witness :
  is_string
    (displayText (this (run lenient_env listening_world
                          [HostUpdateView hi_context; Recognized 0 silence; HostDestroy])))
  = true.
Proof.
  apply (X12_string_is_kept lenient_env
           [HostUpdateView hi_context; Recognized 0 silence; HostDestroy] listening_world);
    reflexivity.
Defined.

(** X13.  Whatever the host passes and whatever happens, every token
    request that a session of a newly constructed control waits for is the
    same: a POST without body to the issueToken endpoint of the region
    westeurope, with the subscription key taken from the process
    environment. *)
Theorem X13_token_request_is_fixed env w es i req :
  sessions w = [] ->
  sessions (run env w es) !! i = Some (AwaitingToken req) ->
  url req = "https://westeurope.api.cognitive.microsoft.com/sts/v1.0/issueToken" /\
  body req = VNull /\
  config req
  = VObj [("headers",
           VObj [("Ocp-Apim-Subscription-Key", SPEECH_KEY env);
                 ("Content-Type", VStr "application/x-www-form-urlencoded")])].
Proof.
  intros Hw Hi.
  assert (Hall : requests_canonical env (sessions (run env w es))).
  { apply run_requests. rewrite Hw. apply Forall_nil_2. }
  unfold requests_canonical in Hall. rewrite Forall_lookup in Hall.
  rewrite (Hall i _ Hi req eq_refl). repeat split.
Qed.

Lemma X13_token_request_is_fixed_witness :
  url (getTokenOrRefresh_request lenient_env)
  = "https://westeurope.api.cognitive.microsoft.com/sts/v1.0/issueToken".
Proof.
  apply (X13_token_request_is_fixed lenient_env fresh_world
           [HostInit hi_context [] 0; HostUpdateView null_context] 0
           (getTokenOrRefresh_request lenient_env) eq_refl eq_refl).
Defined.

Section Silent.

Variable env : Env.

Lemma step_dom w e : touches_dom e = false -> dom (step env w e) = dom w.
Proof.
  destruct e as [context state container|context| | |i settled|i result];
    cbn [step touches_dom]; intros Ht; try discriminate; try reflexivity.
  - destruct (sessions w !! i) as [[]|]; auto using resume_session_dom.
  - by destruct (sessions w !! i) as [[]|].
Qed.

End Silent.

(** X14.  What the recognition flow never does: over any sequence of
    events the host's [notifyOutputChanged] is not called, and over events
    other than [init] and [updateView] (token settlements, recognition
    results, [getOutputs], [destroy]) the DOM stays as it is, so the label
    shows neither the placeholder nor the outcome. *)
Theorem X14_flow_is_silent env es : forall w,
  notified (run env w es) = notified w /\
  (forallb (fun e => negb (touches_dom e)) es = true -> dom (run env w es) = dom w).
Proof.
  induction es as [|e es IH]; intros w; [by split|].
  change (run env w (e :: es)) with (run env (step env w e) es).
  destruct (IH (step env w e)) as [Hn Hd]. split.
  - rewrite Hn. apply step_notified.
  - cbn. intros Hes. apply andb_prop in Hes as [He Hes].
    rewrite (Hd Hes). apply step_dom. by destruct (touches_dom e).
Qed.

Lemma X14_flow_is_silent_witness :
  dom (run lenient_env (step lenient_env fresh_world (HostInit hi_context [] 0))
         [TokenSettled 0 token_200; HostGetOutputs; Recognized 0 hello; HostDestroy])
  = dom (step lenient_env fresh_world (HostInit hi_context [] 0)).
Proof.
  apply (X14_flow_is_silent lenient_env
           [TokenSettled 0 token_200; HostGetOutputs; Recognized 0 hello; HostDestroy]).
  reflexivity.
Defined.
